(** * Conjur credential manager: path templates and configuration validation

    A shallow embedding of the manager of package [conjur] (its [Manager],
    [Secret], [buildSecretTemplate], [Validate], [IsConfigured], [Init] and
    [NewSecretsFactory]) together with the part of Go's [text/template]
    engine that the manager drives: [template.New(name).Option("missingkey=error").Parse],
    [parse.IsEmptyTree] and [Template.Execute] on a pointer to a [Secret].

    Go strings are byte strings; they are modelled by [string], whose
    characters are the 256 byte values. *)

From Stdlib Require Import Bool List String Ascii.
Import ListNotations.
Open Scope string_scope.
Set Warnings "-register-all".

(** ** Errors

    A Go [error] is either built by [errors.New] in the manager, or comes
    out of the template engine.  The engine's messages are not modelled,
    only which template raised the error and, for execution errors, on which
    field. *)
Inductive error : Type :=
| errors_New (text : string)
| ParseError (name : string)
| ExecError (name : string) (field : string).

(** ** The data a template is rendered on (manager.go, [type Secret])

    The field [Secret] is written [Secret_], the record has the name. *)
Record Secret : Type := {
  Team : string;
  Pipeline : string;
  Secret_ : string
}.

(** ** The part of [text/template] used by the manager *)
Module template.

(** *** Parse tree ([text/template/parse], node.go)

    The modelled fragment has text, actions made of one operand, and
    [{{if}}]/[{{else}}]/[{{end}}].  An operand is a field chain
    [.A.B.C], an interpreted string constant, or a boolean constant.
    The engine has more, which the fragment leaves out: with, range,
    define and template calls, pipes, function calls, variables and
    commands of several operands. *)
Inductive Arg : Type :=
| FieldNode (first : string) (more : list string)
| StringNode (Text : string)
| BoolNode (True : bool).

Inductive Node : Type :=
| TextNode (Text : string)
| ActionNode (Pipe : Arg)
| IfNode (Pipe : Arg) (List ElseList : list Node).

(** A [*ListNode] is the list of its [Nodes]. *)
Definition ListNode : Type := list Node.

Record Template : Type := { Name : string; Root : ListNode }.

(** *** Lexer (lex.go), default delimiters

    One pass over the bytes.  The state names follow the state functions
    of lex.go.  The items of one action are collected between its
    delimiters.  Anything the fragment does not cover makes the lexer
    give up: trim markers, numbers, variables, pipes, parentheses, raw
    strings, character constants, escapes in strings, the bare dot,
    keywords other than if/else/end, function names, bytes above 127 in
    an action, and line breaks inside an action (an error before Go 1.16,
    white space since). *)
Inductive item : Type :=
| itemField (val : string)
| itemString (val : string)
| itemBool (val : bool)
| itemIf
| itemElse
| itemEnd
| itemSpace.

Inductive chunk : Type :=
| chunkText (val : string)
| chunkAction (items : list item).

Inductive stateFn : Type :=
| lexText (buf : string)
| lexComment
| lexInsideAction
| lexField (word : string)
| lexIdentifier (word : string)
| lexQuote (val : string).

Definition quote : ascii := ascii_of_nat 34.

Definition isByte (c : ascii) (d : string) : bool :=
  match d with
  | String d0 EmptyString => Ascii.eqb c d0
  | _ => false
  end.

Definition between (lo hi : nat) (c : ascii) : bool :=
  Nat.leb lo (nat_of_ascii c) && Nat.leb (nat_of_ascii c) hi.

(** [isSpace] of lex.go, without the line breaks. *)
Definition isSpace (c : ascii) : bool :=
  Nat.eqb (nat_of_ascii c) 32 || Nat.eqb (nat_of_ascii c) 9.

Definition isDigit (c : ascii) : bool := between 48 57 c.

Definition isLetter (c : ascii) : bool :=
  isByte c "_" || between 65 90 c || between 97 122 c.

(** [isAlphaNumeric] of lex.go on ASCII. *)
Definition isAlphaNumeric (c : ascii) : bool := isLetter c || isDigit c.

(** Bytes allowed unescaped in an interpreted string constant. *)
Definition isPlain (c : ascii) : bool :=
  between 32 126 c && negb (Ascii.eqb c quote) && negb (isByte c "\").

Definition snoc (s : string) (c : ascii) : string := s ++ String c EmptyString.

Definition emitText (buf : string) (out : list chunk) : list chunk :=
  match buf with
  | EmptyString => out
  | _ => chunkText buf :: out
  end.

(** The [key] table of lex.go and the boolean constants, as far as the
    fragment goes. *)
Definition keyword (word : string) : option item :=
  if word =? "if" then Some itemIf
  else if word =? "else" then Some itemElse
  else if word =? "end" then Some itemEnd
  else if word =? "true" then Some (itemBool true)
  else if word =? "false" then Some (itemBool false)
  else None.

(** [items] and [out] are kept in reverse. *)
Fixpoint lex (st : stateFn) (items : list item) (out : list chunk)
         (input : string) {struct input} : option (list chunk) :=
  match input with
  | EmptyString =>
      match st with
      | lexText buf => Some (rev (emitText buf out))
      | _ => None
      end
  | String c rest =>
      let insideAction (items : list item) : option (list chunk) :=
        if isSpace c then lex lexInsideAction (itemSpace :: items) out rest
        else if isByte c "." then lex (lexField EmptyString) items out rest
        else if Ascii.eqb c quote then lex (lexQuote EmptyString) items out rest
        else if isLetter c then
          lex (lexIdentifier (String c EmptyString)) items out rest
        else if isByte c "}" then
          match rest with
          | String c1 rest1 =>
              if isByte c1 "}" then
                lex (lexText EmptyString) [] (chunkAction (rev items) :: out) rest1
              else None
          | EmptyString => None
          end
        else None in
      let atTerminator : bool := isSpace c || isByte c "." || isByte c "}" in
      match st with
      | lexText buf =>
          match rest with
          | String c1 rest1 =>
              if isByte c "{" && isByte c1 "{" then
                match rest1 with
                | String c2 (String c3 rest3) =>
                    if isByte c2 "/" && isByte c3 "*" then
                      lex lexComment [] (emitText buf out) rest3
                    else lex lexInsideAction [] (emitText buf out) rest1
                | _ => lex lexInsideAction [] (emitText buf out) rest1
                end
              else lex (lexText (snoc buf c)) items out rest
          | EmptyString => lex (lexText (snoc buf c)) items out rest
          end
      | lexComment =>
          match rest with
          | String c1 rest1 =>
              if isByte c "*" && isByte c1 "/" then
                match rest1 with
                | String c2 (String c3 rest3) =>
                    if isByte c2 "}" && isByte c3 "}" then
                      lex (lexText EmptyString) [] out rest3
                    else None
                | _ => None
                end
              else lex lexComment items out rest
          | EmptyString => None
          end
      | lexInsideAction => insideAction items
      | lexField word =>
          match word with
          | EmptyString =>
              if isLetter c then lex (lexField (snoc word c)) items out rest
              else None
          | _ =>
              if isAlphaNumeric c then lex (lexField (snoc word c)) items out rest
              else if atTerminator then insideAction (itemField word :: items)
              else None
          end
      | lexIdentifier word =>
          if isAlphaNumeric c then lex (lexIdentifier (snoc word c)) items out rest
          else if atTerminator then
            match keyword word with
            | Some it => insideAction (it :: items)
            | None => None
            end
          else None
      | lexQuote val =>
          if Ascii.eqb c quote then lex lexInsideAction (itemString val :: items) out rest
          else if isPlain c then lex (lexQuote (snoc val c)) items out rest
          else None
      end
  end.

(** *** Parser (parse.go) *)

Fixpoint skipSpace (items : list item) : list item :=
  match items with
  | itemSpace :: rest => skipSpace rest
  | _ => items
  end.

(** The fields that follow a term without a space in between. *)
Fixpoint chain (items : list item) : list string * list item :=
  match items with
  | itemField val :: rest =>
      let (more, rest') := chain rest in (val :: more, rest')
  | _ => ([], items)
  end.

(** [Tree.operand]: a term and its field chain.  A field after a string
    or boolean constant is "unexpected . after term". *)
Definition operand (items : list item) : option (Arg * list item) :=
  match items with
  | itemField val :: rest =>
      let (more, rest') := chain rest in Some (FieldNode val more, rest')
  | itemString val :: rest =>
      match rest with
      | itemField _ :: _ => None
      | _ => Some (StringNode val, rest)
      end
  | itemBool val :: rest =>
      match rest with
      | itemField _ :: _ => None
      | _ => Some (BoolNode val, rest)
      end
  | _ => None
  end.

(** [Tree.pipeline] up to the right delimiter, for a pipeline of one
    command of one operand; an empty pipeline is "missing value". *)
Definition pipeline (items : list item) : option Arg :=
  match operand (skipSpace items) with
  | Some (arg, rest) =>
      match skipSpace rest with
      | [] => Some arg
      | _ => None
      end
  | None => None
  end.

(** What [Tree.action] finds between the delimiters. *)
Inductive action : Type :=
| newAction (pipe : Arg)
| ifControl (pipe : Arg)
| elseControl
| endControl.

Definition parseAction (items : list item) : option action :=
  match skipSpace items with
  | itemIf :: rest => option_map ifControl (pipeline rest)
  | itemElse :: rest =>
      match skipSpace rest with
      | [] => Some elseControl
      | _ => None
      end
  | itemEnd :: rest =>
      match skipSpace rest with
      | [] => Some endControl
      | _ => None
      end
  | items' => option_map newAction (pipeline items')
  end.

(** [Tree.itemList] and [Tree.parseControl], with the open [{{if}}]s on
    an explicit stack.  [nodes] is the list being built, in reverse. *)
Inductive control : Type :=
| inList (pipe : Arg) (outer : list Node)
| inElseList (pipe : Arg) (outer : list Node) (List : ListNode).

Fixpoint itemList (chunks : list chunk) (nodes : list Node)
         (open : list control) : option ListNode :=
  match chunks with
  | [] =>
      match open with
      | [] => Some (rev nodes)
      | _ => None
      end
  | chunkText val :: chunks' => itemList chunks' (TextNode val :: nodes) open
  | chunkAction items :: chunks' =>
      match parseAction items with
      | Some (newAction pipe) => itemList chunks' (ActionNode pipe :: nodes) open
      | Some (ifControl pipe) => itemList chunks' [] (inList pipe nodes :: open)
      | Some elseControl =>
          match open with
          | inList pipe outer :: open' =>
              itemList chunks' [] (inElseList pipe outer (rev nodes) :: open')
          | _ => None
          end
      | Some endControl =>
          match open with
          | inList pipe outer :: open' =>
              itemList chunks' (IfNode pipe (rev nodes) [] :: outer) open'
          | inElseList pipe outer List :: open' =>
              itemList chunks' (IfNode pipe List (rev nodes) :: outer) open'
          | [] => None
          end
      | None => None
      end
  end.

(** [parse.Parse] for one template without [{{define}}]. *)
Definition parse (text : string) : option ListNode :=
  match lex (lexText EmptyString) [] [] text with
  | Some chunks => itemList chunks [] []
  | None => None
  end.

(** [template.New(name).Option("missingkey=error").Parse(text)].  The
    option only changes the lookup of a missing map key; the data here is
    a struct. *)
Definition Parse (name text : string) : error + Template :=
  match parse text with
  | Some root => inr {| Name := name; Root := root |}
  | None => inl (ParseError name)
  end.

(** *** [parse.IsEmptyTree] (parse.go) *)

Definition asciiSpace (n : nat) : bool :=
  Nat.eqb n 9 || Nat.eqb n 10 || Nat.eqb n 11 || Nat.eqb n 12
  || Nat.eqb n 13 || Nat.eqb n 32.

(** UTF-8 encodings of the other code points of [unicode.IsSpace]:
    U+0085, U+00A0; U+1680, U+2000..U+200A, U+2028, U+2029, U+202F,
    U+205F, U+3000. *)
Definition space2 (a b : nat) : bool :=
  Nat.eqb a 194 && (Nat.eqb b 133 || Nat.eqb b 160).

Definition space3 (a b c : nat) : bool :=
  (Nat.eqb a 225 && Nat.eqb b 154 && Nat.eqb c 128)
  || (Nat.eqb a 226 && Nat.eqb b 128
      && ((Nat.leb 128 c && Nat.leb c 138) || Nat.eqb c 168
          || Nat.eqb c 169 || Nat.eqb c 175))
  || (Nat.eqb a 226 && Nat.eqb b 129 && Nat.eqb c 159)
  || (Nat.eqb a 227 && Nat.eqb b 128 && Nat.eqb c 128).

(** [len(bytes.TrimSpace(text)) == 0]: the bytes decode to white space
    runes only. *)
Fixpoint trimsToEmpty (text : string) : bool :=
  match text with
  | EmptyString => true
  | String c rest =>
      if asciiSpace (nat_of_ascii c) then trimsToEmpty rest
      else
        match rest with
        | String c1 rest1 =>
            if space2 (nat_of_ascii c) (nat_of_ascii c1) then trimsToEmpty rest1
            else
              match rest1 with
              | String c2 rest2 =>
                  if space3 (nat_of_ascii c) (nat_of_ascii c1) (nat_of_ascii c2)
                  then trimsToEmpty rest2
                  else false
              | EmptyString => false
              end
        | EmptyString => false
        end
  end.

(** The cases of the type switch for the nodes of the fragment; the
    [*ListNode] case is the inner loop. *)
Definition IsEmptyNode (n : Node) : bool :=
  match n with
  | TextNode Text => trimsToEmpty Text
  | ActionNode _ => false
  | IfNode _ _ _ => false
  end.

Definition IsEmptyTree (n : ListNode) : bool := forallb IsEmptyNode n.

(** *** Execution (exec.go) on a [Secret] *)

Inductive value : Type :=
| stringValue (s : string)
| boolValue (b : bool).

(** [fmt.Fprint] of a value. *)
Definition printValue (v : value) : string :=
  match v with
  | stringValue s => s
  | boolValue true => "true"
  | boolValue false => "false"
  end.

(** [isTrue]: a string is true when it is not empty. *)
Definition isTrue (v : value) : bool :=
  match v with
  | stringValue s => negb (s =? "")
  | boolValue b => b
  end.

(** [state.evalField] on a [Secret], which has three exported string
    fields and no methods: any other name cannot be evaluated. *)
Definition evalField (name : string) (receiver : Secret) (fieldName : string)
  : error + string :=
  if fieldName =? "Team" then inr (Team receiver)
  else if fieldName =? "Pipeline" then inr (Pipeline receiver)
  else if fieldName =? "Secret" then inr (Secret_ receiver)
  else inl (ExecError name fieldName).

(** [state.evalFieldChain]: the fields after the first are looked up in
    a string, which has none ("can't evaluate field in type string"). *)
Definition evalFieldChain (name : string) (dot : Secret)
           (first : string) (more : list string) : error + value :=
  match evalField name dot first with
  | inl err => inl err
  | inr s =>
      match more with
      | [] => inr (stringValue s)
      | fieldName :: _ => inl (ExecError name fieldName)
      end
  end.

(** [state.evalPipeline] for a pipeline of one operand. *)
Definition evalPipeline (name : string) (dot : Secret) (pipe : Arg)
  : error + value :=
  match pipe with
  | FieldNode first more => evalFieldChain name dot first more
  | StringNode Text => inr (stringValue Text)
  | BoolNode True => inr (boolValue True)
  end.

(** The loop of [state.walk] over a [*ListNode].  The result is what was
    written to the writer, and the error that stopped the walk, if any. *)
Fixpoint walkList (walk : Node -> string * option error) (nodes : list Node)
  : string * option error :=
  match nodes with
  | [] => (EmptyString, None)
  | node :: nodes' =>
      match walk node with
      | (out, Some err) => (out, Some err)
      | (out, None) =>
          let (out', err) := walkList walk nodes' in (out ++ out', err)
      end
  end.

(** [state.walk] and [state.walkIfOrWith]. *)
Fixpoint walk (name : string) (dot : Secret) (node : Node)
  : string * option error :=
  match node with
  | TextNode Text => (Text, None)
  | ActionNode Pipe =>
      match evalPipeline name dot Pipe with
      | inl err => (EmptyString, Some err)
      | inr val => (printValue val, None)
      end
  | IfNode Pipe List ElseList =>
      match evalPipeline name dot Pipe with
      | inl err => (EmptyString, Some err)
      | inr val =>
          if isTrue val then walkList (walk name dot) List
          else walkList (walk name dot) ElseList
      end
  end.

(** [t.Execute(wr, &data)]: the bytes written to [wr] and the error. *)
Definition Execute (t : Template) (data : Secret) : string * option error :=
  walkList (walk (Name t) data) (Root t).

End template.

(** ** manager.go *)

Definition DefaultPipelineSecretTemplate : string :=
  "/concourse/{{.Team}}/{{.Pipeline}}/{{.Secret}}".
Definition DefaultTeamSecretTemplate : string :=
  "/concourse/{{.Team}}/{{.Secret}}".

(** What the manager hands to the Conjur client library: the two fields of
    [conjurapi.Config] it assigns, and the login pair. *)
Record Config : Type := { ApplianceURL : string; Account : string }.
Record LoginPair : Type := { Login : string; APIKey : string }.

(** A [*conjurapi.Client], known by what it was made from. *)
Record Client : Type := { clientConfig : Config; clientLogin : LoginPair }.

(** [type Conjur struct] without its logger. *)
Record Conjur : Type := { client : Client }.

(** [type Manager struct]; the pointer [Conjur] is [None] when nil. *)
Record Manager : Type := {
  ConjurApplianceUrl : string;
  ConjurAccount : string;
  ConjurCertFile : string;
  ConjurAuthnLogin : string;
  ConjurAuthnApiKey : string;
  PipelineSecretTemplate : string;
  TeamSecretTemplate : string;
  Conjur_ : option Conjur
}.

Definition buildSecretTemplate (name tmpl : string) : error + template.Template :=
  match template.Parse name tmpl with
  | inl err => inl err
  | inr t =>
      if template.IsEmptyTree (template.Root t)
      then inl (errors_New "secret template should not be empty")
      else inr t
  end.

(** *** Methods on [*Manager]

    A method with a pointer receiver reads and may write the manager it is
    called on: a state monad over [Manager]. *)
Definition method (A : Type) : Type := Manager -> A * Manager.

Definition ret {A : Type} (a : A) : method A := fun manager => (a, manager).

Definition bind {A B : Type} (c : method A) (k : A -> method B) : method B :=
  fun manager => let (a, manager') := c manager in k a manager'.

(** [manager.F] *)
Definition load {A : Type} (F : Manager -> A) : method A :=
  fun manager => (F manager, manager).

(** [manager.Conjur = c] *)
Definition storeConjur (c : option Conjur) : method unit :=
  fun manager =>
    (tt, {| ConjurApplianceUrl := ConjurApplianceUrl manager;
            ConjurAccount := ConjurAccount manager;
            ConjurCertFile := ConjurCertFile manager;
            ConjurAuthnLogin := ConjurAuthnLogin manager;
            ConjurAuthnApiKey := ConjurAuthnApiKey manager;
            PipelineSecretTemplate := PipelineSecretTemplate manager;
            TeamSecretTemplate := TeamSecretTemplate manager;
            Conjur_ := c |}).

Notation "x <- c ;; k" := (bind c (fun x => k))
  (at level 61, c at next level, right associativity).

Definition IsConfigured : method bool :=
  url <- load ConjurApplianceUrl ;;
  ret (negb (url =? "")).

Definition dummy : Secret :=
  {| Team := "team"; Pipeline := "pipeline"; Secret_ := "secret" |}.

Definition Validate : method (option error) :=
  tmpl <- load PipelineSecretTemplate ;;
  match buildSecretTemplate "pipeline-secret-template" tmpl with
  | inl err => ret (Some err)
  | inr pipelineSecretTemplate =>
  tmpl <- load TeamSecretTemplate ;;
  match buildSecretTemplate "team-secret-template" tmpl with
  | inl err => ret (Some err)
  | inr teamSecretTemplate =>
  match snd (template.Execute pipelineSecretTemplate dummy) with
  | Some err => ret (Some err)
  | None =>
  match snd (template.Execute teamSecretTemplate dummy) with
  | Some err => ret (Some err)
  | None =>
  url <- load ConjurApplianceUrl ;;
  account <- load ConjurAccount ;;
  login <- load ConjurAuthnLogin ;;
  key <- load ConjurAuthnApiKey ;;
  if (url =? "") && (account =? "") && (login =? "") && (key =? "")
  then ret None
  else if login =? "" then ret (Some (errors_New "must provide conjur authn login"))
  else if key =? "" then ret (Some (errors_New "must provide conjur authn key"))
  else if url =? "" then ret (Some (errors_New "must provide conjur appliance url"))
  else if account =? "" then ret (Some (errors_New "must provide conjur account"))
  else ret None
  end end end end.

(** *** The methods that reach the Conjur client library

    [conjurapi.LoadConfig] reads the environment and [NewClientFromKey]
    belongs to the library: both are taken as they come.  Of the loaded
    configuration the manager overwrites the appliance URL and the account,
    the two fields [Config] has here; what else the library loads is not
    modelled.  [NewClientFromKey] is taken as a function of its arguments:
    that each call makes a client object of its own is not modelled.  What
    is written to the logger is not modelled. *)
Section conjurapi.

Variable LoadConfig : error + Config.
Variable NewClientFromKey : Config -> LoginPair -> error + Client.

Definition Init : method (option error) :=
  match LoadConfig with
  | inl err => ret (Some err)
  | inr _ =>
  url <- load ConjurApplianceUrl ;;
  account <- load ConjurAccount ;;
  let config := {| ApplianceURL := url; Account := account |} in
  login <- load ConjurAuthnLogin ;;
  key <- load ConjurAuthnApiKey ;;
  match NewClientFromKey config {| Login := login; APIKey := key |} with
  | inl err => ret (Some err)
  | inr conjur =>
  _ <- storeConjur (Some {| client := conjur |}) ;;
  ret None
  end end.

(** Modelled from the spec: the factory that [NewConjurFactory] returns,
    declared elsewhere in the package; it keeps the client and the compiled
    templates it is given, in the order given. *)
Record ConjurFactory : Type := {
  factoryClient : Client;
  secretTemplates : list template.Template
}.

(** Modelled from the spec: [NewConjurFactory], without the logger. *)
Definition NewConjurFactory (c : Client) (secretTemplates : list template.Template)
  : ConjurFactory :=
  {| factoryClient := c; secretTemplates := secretTemplates |}.

Definition NewSecretsFactory : method (error + ConjurFactory) :=
  match LoadConfig with
  | inl err => ret (inl err)
  | inr _ =>
  url <- load ConjurApplianceUrl ;;
  account <- load ConjurAccount ;;
  let config := {| ApplianceURL := url; Account := account |} in
  login <- load ConjurAuthnLogin ;;
  key <- load ConjurAuthnApiKey ;;
  match NewClientFromKey config {| Login := login; APIKey := key |} with
  | inl err => ret (inl err)
  | inr client =>
  tmpl <- load PipelineSecretTemplate ;;
  match buildSecretTemplate "pipeline-secret-template" tmpl with
  | inl err => ret (inl err)
  | inr pipelineSecretTemplate =>
  tmpl <- load TeamSecretTemplate ;;
  match buildSecretTemplate "team-secret-template" tmpl with
  | inl err => ret (inl err)
  | inr teamSecretTemplate =>
  ret (inr (NewConjurFactory client [pipelineSecretTemplate; teamSecretTemplate]))
  end end end end.

End conjurapi.

(** ** Secret resolver *)

(** Modelled from the spec: the store client, of which only
    [fetch(path) -> (value, found) | Error] is known. *)
Inductive fetched : Type :=
| fetchValue (value : string)
| fetchNotFound
| fetchError (err : error).

Definition StoreClient : Type := string -> fetched.

(** Modelled from the spec: the terminal states of one resolution,
    [Found(value)], [ExhaustedNotFound] and [Error(cause)]. *)
Inductive resolution : Type :=
| Found (value : string)
| ExhaustedNotFound
| Error (cause : error).

(** Modelled from the spec: the precedence list of the resolver, which is
    declared elsewhere in the package.  The pipeline-scoped template, first in
    [compiledTemplates], is applicable only when the request has a
    pipeline; the team-scoped template is always applicable. *)
Definition precedence (request : Secret) (compiledTemplates : list template.Template)
  : list template.Template :=
  match compiledTemplates with
  | pipelineScoped :: rest =>
      if Pipeline request =? "" then rest else pipelineScoped :: rest
  | [] => []
  end.

(** Modelled from the spec: the loop of [resolve] over the applicable
    templates (render, query, continue on not-found, stop on a value, abort
    on a render or transport error).  The first component lists the paths
    the store client was queried with, in order. *)
Fixpoint tryCandidates (request : Secret) (storeClient : StoreClient)
         (candidates : list template.Template) : list string * resolution :=
  match candidates with
  | [] => ([], ExhaustedNotFound)
  | t :: candidates' =>
      match template.Execute t request with
      | (_, Some err) => ([], Error err)
      | (path, None) =>
          match storeClient path with
          | fetchValue value => ([path], Found value)
          | fetchNotFound =>
              let (queried, r) := tryCandidates request storeClient candidates' in
              (path :: queried, r)
          | fetchError err => ([path], Error err)
          end
      end
  end.

(** Modelled from the spec: [resolve(request, compiledTemplates, storeClient)]. *)
Definition resolve (request : Secret) (compiledTemplates : list template.Template)
           (storeClient : StoreClient) : list string * resolution :=
  tryCandidates request storeClient (precedence request compiledTemplates).

(** ** Vocabulary of the statements *)

(** The three fields of [Secret]. *)
Definition known (fieldName : string) : bool :=
  (fieldName =? "Team") || (fieldName =? "Pipeline") || (fieldName =? "Secret").

(** The field names an operand mentions. *)
Definition argFields (arg : template.Arg) : list string :=
  match arg with
  | template.FieldNode first more => first :: more
  | _ => []
  end.

(** The field names a template mentions, wherever they stand. *)
Fixpoint fieldNames (node : template.Node) : list string :=
  match node with
  | template.TextNode _ => []
  | template.ActionNode Pipe => argFields Pipe
  | template.IfNode Pipe List ElseList =>
      argFields Pipe ++ flat_map fieldNames List ++ flat_map fieldNames ElseList
  end.

Definition references (t : template.Template) (fieldName : string) : Prop :=
  In fieldName (flat_map fieldNames (template.Root t)).

(** The operands that executing a node on [dot] evaluates when nothing
    fails on the way: those of the branch not taken are left out. *)
Fixpoint reached (dot : Secret) (node : template.Node) : list template.Arg :=
  match node with
  | template.TextNode _ => []
  | template.ActionNode Pipe => [Pipe]
  | template.IfNode Pipe List ElseList =>
      Pipe ::
      match template.evalPipeline EmptyString dot Pipe with
      | inr val =>
          if template.isTrue val then flat_map (reached dot) List
          else flat_map (reached dot) ElseList
      | inl _ => []
      end
  end.

Definition mentionsUnknown (arg : template.Arg) : bool :=
  existsb (fun fieldName => negb (known fieldName)) (argFields arg).

(** Some operand evaluated on [dot] mentions a field [Secret] lacks. *)
Definition reachesUnknown (dot : Secret) (t : template.Template) : bool :=
  existsb mentionsUnknown (flat_map (reached dot) (template.Root t)).




(** The interpolation language of the documentation: text and actions that
    are a field reference, nothing else. *)
Definition interpolationNode (node : template.Node) : bool :=
  match node with
  | template.TextNode _ => true
  | template.ActionNode (template.FieldNode _ _) => true
  | _ => false
  end.

Definition interpolation (t : template.Template) : bool :=
  forallb interpolationNode (template.Root t).

(** Both templates of a manager compile and execute on [dummy]. *)
Definition templatesPass (manager : Manager) : Prop :=
  exists pipelineSecretTemplate teamSecretTemplate,
    buildSecretTemplate "pipeline-secret-template" (PipelineSecretTemplate manager)
      = inr pipelineSecretTemplate
    /\ buildSecretTemplate "team-secret-template" (TeamSecretTemplate manager)
      = inr teamSecretTemplate
    /\ snd (template.Execute pipelineSecretTemplate dummy) = None
    /\ snd (template.Execute teamSecretTemplate dummy) = None.

(** The four connection fields are all empty. *)
Definition notInUse (manager : Manager) : bool :=
  (ConjurApplianceUrl manager =? "") && (ConjurAccount manager =? "")
  && (ConjurAuthnLogin manager =? "") && (ConjurAuthnApiKey manager =? "").

(** The documented order of the required fields, each with the message that
    names it. *)
Definition requiredFields (manager : Manager) : list (string * string) :=
  [ (ConjurAuthnLogin manager, "must provide conjur authn login");
    (ConjurAuthnApiKey manager, "must provide conjur authn key");
    (ConjurApplianceUrl manager, "must provide conjur appliance url");
    (ConjurAccount manager, "must provide conjur account") ].

(** The message for the first required field that is empty, if any. *)
Definition firstMissing (manager : Manager) : option string :=
  option_map snd (find (fun field => fst field =? "") (requiredFields manager)).

(** ** Configurations and templates of the examples *)

Definition configuration (url account login key pipelineTemplate teamTemplate : string)
  : Manager :=
  {| ConjurApplianceUrl := url;
     ConjurAccount := account;
     ConjurCertFile := "";
     ConjurAuthnLogin := login;
     ConjurAuthnApiKey := key;
     PipelineSecretTemplate := pipelineTemplate;
     TeamSecretTemplate := teamTemplate;
     Conjur_ := None |}.

Definition defaults (url account login key : string) : Manager :=
  configuration url account login key
    DefaultPipelineSecretTemplate DefaultTeamSecretTemplate.

Definition pipelineDefault : template.Template :=
  {| template.Name := "pipeline-secret-template";
     template.Root :=
       [ template.TextNode "/concourse/";
         template.ActionNode (template.FieldNode "Team" []);
         template.TextNode "/";
         template.ActionNode (template.FieldNode "Pipeline" []);
         template.TextNode "/";
         template.ActionNode (template.FieldNode "Secret" []) ] |}.

Definition teamDefault : template.Template :=
  {| template.Name := "team-secret-template";
     template.Root :=
       [ template.TextNode "/concourse/";
         template.ActionNode (template.FieldNode "Team" []);
         template.TextNode "/";
         template.ActionNode (template.FieldNode "Secret" []) ] |}.

(** A template with a field of another credential manager in the branch
    for requests without a pipeline. *)
Definition pipelineOrJob : string :=
  "/concourse/{{.Team}}/{{if .Pipeline}}{{.Pipeline}}{{else}}{{.Job}}{{end}}/{{.Secret}}".

(** The action that prints the empty string constant. *)
Definition emptyStringAction : string :=
  "{{" ++ String template.quote (String template.quote "}}").

Definition t1p1s1 : Secret := {| Team := "t1"; Pipeline := "p1"; Secret_ := "s1" |}.

(** A store that has the team-scoped entry only. *)
Definition teamOnlyStore : StoreClient :=
  fun path => if path =? "/concourse/t1/s1" then fetchValue "v" else fetchNotFound.

Definition someConfig : Config := {| ApplianceURL := ""; Account := "" |}.

Definition newClient (config : Config) (login : LoginPair) : error + Client :=
  inr {| clientConfig := config; clientLogin := login |}.

(** The first check on the templates that fails, in the order in which
    [Validate] runs them: compile the pipeline-scoped template, compile the
    team-scoped one, execute the pipeline-scoped one, execute the
    team-scoped one. *)
Inductive templateFailure (manager : Manager) (err : error) : Prop :=
| pipelineDoesNotCompile :
    buildSecretTemplate "pipeline-secret-template" (PipelineSecretTemplate manager)
      = inl err ->
    templateFailure manager err
| teamDoesNotCompile (pipelineSecretTemplate : template.Template) :
    buildSecretTemplate "pipeline-secret-template" (PipelineSecretTemplate manager)
      = inr pipelineSecretTemplate ->
    buildSecretTemplate "team-secret-template" (TeamSecretTemplate manager)
      = inl err ->
    templateFailure manager err
| pipelineDoesNotExecute (pipelineSecretTemplate teamSecretTemplate : template.Template) :
    buildSecretTemplate "pipeline-secret-template" (PipelineSecretTemplate manager)
      = inr pipelineSecretTemplate ->
    buildSecretTemplate "team-secret-template" (TeamSecretTemplate manager)
      = inr teamSecretTemplate ->
    snd (template.Execute pipelineSecretTemplate dummy) = Some err ->
    templateFailure manager err
| teamDoesNotExecute (pipelineSecretTemplate teamSecretTemplate : template.Template) :
    buildSecretTemplate "pipeline-secret-template" (PipelineSecretTemplate manager)
      = inr pipelineSecretTemplate ->
    buildSecretTemplate "team-secret-template" (TeamSecretTemplate manager)
      = inr teamSecretTemplate ->
    snd (template.Execute pipelineSecretTemplate dummy) = None ->
    snd (template.Execute teamSecretTemplate dummy) = Some err ->
    templateFailure manager err.

(** Two configurations with the same two template strings. *)
Definition sameTemplates (manager manager' : Manager) : Prop :=
  PipelineSecretTemplate manager = PipelineSecretTemplate manager'
  /\ TeamSecretTemplate manager = TeamSecretTemplate manager'.

(** ** Vocabulary of the further properties *)

(** The four connection fields are all set. *)
Definition allSet (manager : Manager) : bool :=
  negb (ConjurApplianceUrl manager =? "") && negb (ConjurAccount manager =? "")
  && negb (ConjurAuthnLogin manager =? "") && negb (ConjurAuthnApiKey manager =? "").

(** [manager.ConjurCertFile = certFile] *)
Definition withCertFile (certFile : string) (manager : Manager) : Manager :=
  {| ConjurApplianceUrl := ConjurApplianceUrl manager;
     ConjurAccount := ConjurAccount manager;
     ConjurCertFile := certFile;
     ConjurAuthnLogin := ConjurAuthnLogin manager;
     ConjurAuthnApiKey := ConjurAuthnApiKey manager;
     PipelineSecretTemplate := PipelineSecretTemplate manager;
     TeamSecretTemplate := TeamSecretTemplate manager;
     Conjur_ := Conjur_ manager |}.

(** Two managers with the same settings; the client handle may differ. *)
Definition sameSettings (manager manager' : Manager) : Prop :=
  ConjurApplianceUrl manager' = ConjurApplianceUrl manager
  /\ ConjurAccount manager' = ConjurAccount manager
  /\ ConjurCertFile manager' = ConjurCertFile manager
  /\ ConjurAuthnLogin manager' = ConjurAuthnLogin manager
  /\ ConjurAuthnApiKey manager' = ConjurAuthnApiKey manager
  /\ PipelineSecretTemplate manager' = PipelineSecretTemplate manager
  /\ TeamSecretTemplate manager' = TeamSecretTemplate manager.

(** The configuration and the login pair that [Init] and
    [NewSecretsFactory] hand to [NewClientFromKey]. *)
Definition configOf (manager : Manager) : Config :=
  {| ApplianceURL := ConjurApplianceUrl manager; Account := ConjurAccount manager |}.

Definition loginOf (manager : Manager) : LoginPair :=
  {| Login := ConjurAuthnLogin manager; APIKey := ConjurAuthnApiKey manager |}.

(** The errors of [Validate] that carry no field name. *)
Definition validationErrors : list error :=
  [ ParseError "pipeline-secret-template";
    ParseError "team-secret-template";
    errors_New "secret template should not be empty";
    errors_New "must provide conjur authn login";
    errors_New "must provide conjur authn key";
    errors_New "must provide conjur appliance url";
    errors_New "must provide conjur account" ].

(** A text without an opening brace, hence without a left delimiter. *)
Fixpoint noBrace (text : string) : bool :=
  match text with
  | EmptyString => true
  | String c rest => negb (template.isByte c "{") && noBrace rest
  end.

(** A template whose tree holds only text and actions of one operand (a
    field chain or a constant): no control structure of any kind. *)
Definition textOrAction (node : template.Node) : bool :=
  match node with
  | template.TextNode _ => true
  | template.ActionNode _ => true
  | template.IfNode _ _ _ => false
  end.

Definition textAndActions (t : template.Template) : bool :=
  forallb textOrAction (template.Root t).

(** A client library that refuses every key. *)
Definition refusingClient (config : Config) (login : LoginPair) : error + Client :=
  inl (errors_New "conjur: unauthorized").

(** Unfolding of the methods of the manager. *)
Ltac run_method :=
  unfold Validate, IsConfigured, bind, load, ret; cbn beta iota.

(** * Properties *)

(** ** Sanity checks of the engine on concrete templates *)

Example parse_default_pipeline :
  buildSecretTemplate "pipeline-secret-template" DefaultPipelineSecretTemplate
  = inr pipelineDefault.
Proof. reflexivity. Qed.

Example parse_default_team :
  buildSecretTemplate "team-secret-template" DefaultTeamSecretTemplate
  = inr teamDefault.
Proof. reflexivity. Qed.

Example render_default_pipeline :
  template.Execute pipelineDefault t1p1s1 = ("/concourse/t1/p1/s1", None).
Proof. reflexivity. Qed.

Example render_default_team :
  template.Execute teamDefault t1p1s1 = ("/concourse/t1/s1", None).
Proof. reflexivity. Qed.

Example parse_comment_leaves_no_node :
  template.parse "{{/* nothing here */}}" = Some [].
Proof. reflexivity. Qed.

Example parse_if_else :
  template.parse "{{if .Pipeline}}p{{else}}t{{end}}"
  = Some [template.IfNode (template.FieldNode "Pipeline" [])
            [template.TextNode "p"] [template.TextNode "t"]].
Proof. reflexivity. Qed.

Example parse_unclosed_action : template.parse "/concourse/{{.Team" = None.
Proof. reflexivity. Qed.

Example parse_stray_end : template.parse "{{end}}" = None.
Proof. reflexivity. Qed.

Example blank_template_is_empty :
  buildSecretTemplate "team-secret-template" "  "
  = inl (errors_New "secret template should not be empty").
Proof. reflexivity. Qed.

(** ** What [Validate] computes *)

(** The four checks on the templates, then the checks on the connection
    fields; the manager comes back as it went in. *)
Lemma Validate_eq (manager : Manager) :
  Validate manager =
  (match buildSecretTemplate "pipeline-secret-template" (PipelineSecretTemplate manager) with
   | inl err => Some err
   | inr pipelineSecretTemplate =>
   match buildSecretTemplate "team-secret-template" (TeamSecretTemplate manager) with
   | inl err => Some err
   | inr teamSecretTemplate =>
   match snd (template.Execute pipelineSecretTemplate dummy) with
   | Some err => Some err
   | None =>
   match snd (template.Execute teamSecretTemplate dummy) with
   | Some err => Some err
   | None =>
       if notInUse manager then None
       else if ConjurAuthnLogin manager =? ""
       then Some (errors_New "must provide conjur authn login")
       else if ConjurAuthnApiKey manager =? ""
       then Some (errors_New "must provide conjur authn key")
       else if ConjurApplianceUrl manager =? ""
       then Some (errors_New "must provide conjur appliance url")
       else if ConjurAccount manager =? ""
       then Some (errors_New "must provide conjur account")
       else None
   end end end end, manager).
Proof.
  run_method. unfold notInUse.
  destruct (buildSecretTemplate _ (PipelineSecretTemplate manager)); [reflexivity|].
  destruct (buildSecretTemplate _ (TeamSecretTemplate manager)); [reflexivity|].
  destruct (snd (template.Execute t dummy)); [reflexivity|].
  destruct (snd (template.Execute t0 dummy)); [reflexivity|].
  destruct (ConjurApplianceUrl manager =? ""), (ConjurAccount manager =? ""),
    (ConjurAuthnLogin manager =? ""), (ConjurAuthnApiKey manager =? "");
    reflexivity.
Qed.

Lemma Validate_after_templates (manager : Manager) :
  templatesPass manager ->
  fst (Validate manager) =
  if notInUse manager then None
  else if ConjurAuthnLogin manager =? ""
  then Some (errors_New "must provide conjur authn login")
  else if ConjurAuthnApiKey manager =? ""
  then Some (errors_New "must provide conjur authn key")
  else if ConjurApplianceUrl manager =? ""
  then Some (errors_New "must provide conjur appliance url")
  else if ConjurAccount manager =? ""
  then Some (errors_New "must provide conjur account")
  else None.
Proof.
  intros (p & t & Hp & Ht & Ep & Et).
  rewrite Validate_eq, Hp, Ht, Ep, Et. reflexivity.
Qed.

Lemma defaults_pass (url account login key : string) :
  templatesPass (defaults url account login key).
Proof.
  exists pipelineDefault, teamDefault. repeat split; reflexivity.
Qed.

(** ** Connection fields *)

(** C2. When the templates pass and the four connection fields are not all
    empty, [Validate] returns the error that names the first empty field in
    the order login, api key, appliance URL, account, and returns nil when
    none of them is empty. *)
Theorem Validate_names_first_missing (manager : Manager) :
  templatesPass manager ->
  notInUse manager = false ->
  fst (Validate manager) = option_map errors_New (firstMissing manager).
Proof.
  intros Hpass Huse.
  rewrite (Validate_after_templates manager Hpass), Huse.
  unfold firstMissing, requiredFields. cbn [find fst snd].
  destruct (ConjurAuthnLogin manager =? ""); [reflexivity|].
  destruct (ConjurAuthnApiKey manager =? ""); [reflexivity|].
  destruct (ConjurApplianceUrl manager =? ""); [reflexivity|].
  destruct (ConjurAccount manager =? ""); reflexivity.
Qed.

Lemma Validate_names_first_missing_witness :
  fst (Validate (defaults "https://conjur" "" "host/concourse" ""))
  = Some (errors_New "must provide conjur authn key").
Proof.
  apply (Validate_names_first_missing
           (defaults "https://conjur" "" "host/concourse" "")).
  - exists pipelineDefault, teamDefault. repeat split; reflexivity.
  - reflexivity.
Defined.

(** C5. When the four connection fields are all empty and both templates
    compile and execute, [Validate] returns nil. *)
Theorem Validate_not_in_use (manager : Manager) :
  ConjurApplianceUrl manager = "" ->
  ConjurAccount manager = "" ->
  ConjurAuthnLogin manager = "" ->
  ConjurAuthnApiKey manager = "" ->
  templatesPass manager ->
  fst (Validate manager) = None.
Proof.
  intros Hurl Hacc Hlogin Hkey Hpass.
  rewrite (Validate_after_templates manager Hpass).
  unfold notInUse. rewrite Hurl, Hacc, Hlogin, Hkey. reflexivity.
Qed.

Lemma Validate_not_in_use_witness : fst (Validate (defaults "" "" "" "")) = None.
Proof.
  apply (Validate_not_in_use (defaults "" "" "" ""));
    [reflexivity | reflexivity | reflexivity | reflexivity |].
  exists pipelineDefault, teamDefault. repeat split; reflexivity.
Defined.

(** ** Order of the checks *)

(** C6. [Validate] runs the template checks before any check on the
    connection fields: the first template check that fails (pipeline-scoped
    before team-scoped, compilation before execution) gives the result,
    whatever the connection fields hold. *)
Theorem Validate_templates_first (manager manager' : Manager) (err : error) :
  templateFailure manager err ->
  sameTemplates manager manager' ->
  fst (Validate manager) = Some err /\ fst (Validate manager') = Some err.
Proof.
  intros Hfail [Hp Ht].
  rewrite !Validate_eq; cbn [fst]. rewrite <- Hp, <- Ht.
  destruct Hfail as [H1 | p H1 H2 | p t H1 H2 H3 | p t H1 H2 H3 H4].
  - rewrite H1. split; reflexivity.
  - rewrite H1, H2. split; reflexivity.
  - rewrite H1, H2, H3. split; reflexivity.
  - rewrite H1, H2, H3, H4. split; reflexivity.
Qed.

Lemma Validate_templates_first_witness :
  fst (Validate (configuration "https://conjur" "" "" "" "/concourse/{{.Team" ""))
  = Some (ParseError "pipeline-secret-template")
  /\ fst (Validate (configuration "https://conjur" "acct" "host/concourse" "key"
                      "/concourse/{{.Team" ""))
     = Some (ParseError "pipeline-secret-template").
Proof.
  apply (Validate_templates_first
           (configuration "https://conjur" "" "" "" "/concourse/{{.Team" "")
           (configuration "https://conjur" "acct" "host/concourse" "key"
              "/concourse/{{.Team" "")).
  - apply pipelineDoesNotCompile. reflexivity.
  - split; reflexivity.
Defined.

(** ** Frame *)

(** C9. [Validate] leaves the manager as it found it, whether it returns
    nil or an error: every field, the client handle included, is
    unchanged. *)
Theorem Validate_does_not_mutate (manager : Manager) :
  snd (Validate manager) = manager.
Proof.
  rewrite Validate_eq. reflexivity.
Qed.

(** By contrast [Init] stores the client it creates. *)
Lemma Init_stores_client (LoadConfig : error + Config)
      (NewClientFromKey : Config -> LoginPair -> error + Client)
      (manager : Manager) :
  fst (Init LoadConfig NewClientFromKey manager) = None ->
  exists conjur, Conjur_ (snd (Init LoadConfig NewClientFromKey manager)) = Some conjur.
Proof.
  unfold Init, bind, load, ret, storeConjur.
  destruct LoadConfig; [discriminate|].
  destruct (NewClientFromKey _ _); [discriminate|].
  intros _. eexists. reflexivity.
Qed.

(** ** [IsConfigured] *)

(** C10. [IsConfigured] is true exactly when the appliance URL is not
    empty.  The configuration with nothing set passes [Validate] and is not
    configured; the one with only the appliance URL set is configured and
    fails [Validate]. *)
Theorem IsConfigured_iff_url :
  (forall manager : Manager,
      fst (IsConfigured manager) = true <-> ConjurApplianceUrl manager <> "")
  /\ (fst (Validate (defaults "" "" "" "")) = None
      /\ fst (IsConfigured (defaults "" "" "" "")) = false)
  /\ (fst (Validate (defaults "https://conjur" "" "" ""))
        = Some (errors_New "must provide conjur authn login")
      /\ fst (IsConfigured (defaults "https://conjur" "" "" "")) = true).
Proof.
  split; [| split; split; reflexivity].
  intros manager. run_method. cbn [fst].
  destruct (String.eqb_spec (ConjurApplianceUrl manager) ""); cbn.
  - split; [discriminate | congruence].
  - split; [intros _; assumption | reflexivity].
Qed.

(** ** Execution of templates *)

Import template.

(** Induction on nodes, with the hypothesis on both branches of an
    [IfNode]. *)
Lemma Node_induction (P : Node -> Prop) :
  (forall Text, P (TextNode Text)) ->
  (forall Pipe, P (ActionNode Pipe)) ->
  (forall Pipe List ElseList,
      Forall P List -> Forall P ElseList -> P (IfNode Pipe List ElseList)) ->
  forall node, P node.
Proof.
  intros Htext Haction Hif.
  refine (fix IH (node : Node) : P node :=
            match node with
            | TextNode Text => Htext Text
            | ActionNode Pipe => Haction Pipe
            | IfNode Pipe List ElseList =>
                Hif Pipe List ElseList
                  ((fix all (l : list Node) : Forall P l :=
                      match l with
                      | [] => Forall_nil P
                      | n :: l' => Forall_cons n (IH n) (all l')
                      end) List)
                  ((fix all (l : list Node) : Forall P l :=
                      match l with
                      | [] => Forall_nil P
                      | n :: l' => Forall_cons n (IH n) (all l')
                      end) ElseList)
            end).
Qed.

Lemma existsb_flat_map {A B : Type} (f : B -> bool) (g : A -> list B) (l : list A) :
  existsb f (flat_map g l) = existsb (fun a => existsb f (g a)) l.
Proof.
  induction l as [|a l IH]; [reflexivity|].
  cbn. rewrite existsb_app, IH. reflexivity.
Qed.

(** A list fails as soon as one of its nodes does. *)
Lemma walkList_fails (w : Node -> string * option error) (nodes : list Node) :
  Exists (fun node => exists err, snd (w node) = Some err) nodes ->
  exists err, snd (walkList w nodes) = Some err.
Proof.
  induction nodes as [|node nodes IH]; intros Hex.
  - inversion Hex.
  - cbn. destruct (w node) as [out [err|]] eqn:Hw.
    + exists err. reflexivity.
    + inversion Hex as [? ? [err Herr] | ? ? Hrest]; subst.
      * rewrite Hw in Herr. discriminate.
      * destruct (IH Hrest) as [err Herr].
        destruct (walkList w nodes) as [out' err']. exists err. exact Herr.
Qed.


(** Every error of an execution is an execution error of that template. *)
Lemma evalPipeline_error (name : string) (dot : Secret) (pipe : Arg) (err : error) :
  evalPipeline name dot pipe = inl err -> exists field, err = ExecError name field.
Proof.
  destruct pipe as [first more| |]; cbn; try discriminate.
  unfold evalFieldChain, evalField.
  destruct (first =? "Team"), (first =? "Pipeline"), (first =? "Secret"), more;
    intros H; inversion H; eexists; reflexivity.
Qed.

Lemma walkList_error (w : Node -> string * option error) (Q : error -> Prop)
      (nodes : list Node) :
  Forall (fun node => forall err, snd (w node) = Some err -> Q err) nodes ->
  forall err, snd (walkList w nodes) = Some err -> Q err.
Proof.
  induction 1 as [|node nodes Hnode _ IH]; intros err; [discriminate|].
  cbn. destruct (w node) as [out [err0|]].
  - intros H. apply Hnode. exact H.
  - destruct (walkList w nodes) as [out' err']. apply IH.
Qed.

Lemma walk_error (name : string) (dot : Secret) (node : Node) (err : error) :
  snd (walk name dot node) = Some err -> exists field, err = ExecError name field.
Proof.
  revert err. induction node as [Text | Pipe | Pipe List ElseList IHl IHe]
    using Node_induction; intros err; cbn.
  - discriminate.
  - destruct (evalPipeline name dot Pipe) eqn:He; [|discriminate].
    intros H; inversion H; subst. eapply evalPipeline_error; eassumption.
  - destruct (evalPipeline name dot Pipe) as [e|val] eqn:He.
    + intros H; inversion H; subst. eapply evalPipeline_error; eassumption.
    + destruct (isTrue val);
        apply (walkList_error _ (fun e => exists field, e = ExecError name field));
        assumption.
Qed.

Lemma Execute_error (t : Template) (data : Secret) (err : error) :
  snd (Execute t data) = Some err -> exists field, err = ExecError (Name t) field.
Proof.
  unfold Execute.
  apply (walkList_error _ (fun e => exists field, e = ExecError (Name t) field)).
  apply Forall_forall. intros node _ e. apply walk_error.
Qed.

(** The template's name only labels the errors. *)
Lemma evalPipeline_name (name name' : string) (dot : Secret) (pipe : Arg) :
  match evalPipeline name dot pipe with
  | inr val => evalPipeline name' dot pipe = inr val
  | inl _ => exists err, evalPipeline name' dot pipe = inl err
  end.
Proof.
  destruct pipe as [first more| |]; cbn; try reflexivity.
  unfold evalFieldChain, evalField.
  destruct (first =? "Team"), (first =? "Pipeline"), (first =? "Secret"), more;
    try reflexivity; eexists; reflexivity.
Qed.

(** An operand that mentions a field [Secret] lacks cannot be evaluated. *)
Lemma evalPipeline_unknown (name : string) (dot : Secret) (pipe : Arg) :
  mentionsUnknown pipe = true -> exists err, evalPipeline name dot pipe = inl err.
Proof.
  destruct pipe as [first more| |]; cbn; try discriminate.
  unfold mentionsUnknown, known, evalFieldChain, evalField. cbn.
  destruct (first =? "Team"), (first =? "Pipeline"), (first =? "Secret"), more;
    cbn; try discriminate; intros _; eexists; reflexivity.
Qed.

Lemma reached_unknown_fails (name : string) (dot : Secret) (node : Node) :
  existsb mentionsUnknown (reached dot node) = true ->
  exists err, snd (walk name dot node) = Some err.
Proof.
  induction node as [Text | Pipe | Pipe List ElseList IHl IHe]
    using Node_induction; cbn.
  - discriminate.
  - rewrite orb_false_r. intros H.
    destruct (evalPipeline_unknown name dot Pipe H) as [err ->].
    exists err. reflexivity.
  - intros H. apply orb_true_iff in H. destruct H as [H|H].
    + destruct (evalPipeline_unknown name dot Pipe H) as [err ->].
      exists err. reflexivity.
    + pose proof (evalPipeline_name EmptyString name dot Pipe) as Hn.
      destruct (evalPipeline EmptyString dot Pipe) as [e|val].
      * destruct Hn as [err ->]. exists err. reflexivity.
      * rewrite Hn.
        assert (Hbranch : forall nodes,
                   Forall (fun node =>
                             existsb mentionsUnknown (reached dot node) = true ->
                             exists err, snd (walk name dot node) = Some err) nodes ->
                   existsb mentionsUnknown (flat_map (reached dot) nodes) = true ->
                   exists err, snd (walkList (walk name dot) nodes) = Some err).
        { intros nodes Hall Hex. apply walkList_fails.
          rewrite existsb_flat_map in Hex. apply existsb_exists in Hex.
          destruct Hex as (node & Hin & Hnode).
          apply Exists_exists. exists node. split; [exact Hin|].
          rewrite Forall_forall in Hall. apply Hall; assumption. }
        destruct (isTrue val); [apply (Hbranch List) | apply (Hbranch ElseList)];
          assumption.
Qed.

Lemma Execute_reaches_unknown (t : Template) (dot : Secret) :
  reachesUnknown dot t = true ->
  exists field, snd (Execute t dot) = Some (ExecError (Name t) field).
Proof.
  unfold reachesUnknown, Execute. intros H.
  assert (Hex : exists err, snd (walkList (walk (Name t) dot) (Root t)) = Some err).
  { apply walkList_fails. rewrite existsb_flat_map in H.
    apply existsb_exists in H. destruct H as (node & Hin & Hnode).
    apply Exists_exists. exists node. split; [exact Hin|].
    apply reached_unknown_fails. exact Hnode. }
  destruct Hex as [err Herr].
  destruct (Execute_error t dot err Herr) as [field ->].
  exists field. exact Herr.
Qed.




Lemma buildSecretTemplate_name (name tmpl : string) (t : Template) :
  buildSecretTemplate name tmpl = inr t -> Name t = name.
Proof.
  unfold buildSecretTemplate, Parse.
  destruct (parse tmpl) as [root|]; [|discriminate]. cbn [Root].
  destruct (IsEmptyTree root); [discriminate|].
  intros H; inversion H. reflexivity.
Qed.

(** ** Empty templates *)

Lemma evalFieldChain_dummy (name first : string) (more : list string) (val : value) :
  evalFieldChain name dummy first more = inr val -> printValue val <> "".
Proof.
  unfold evalFieldChain, evalField.
  destruct (first =? "Team"), (first =? "Pipeline"), (first =? "Secret"), more;
    intros H; inversion H; discriminate.
Qed.

Lemma append_empty (a b : string) : a ++ b = "" -> a = "" /\ b = "".
Proof.
  destruct a; cbn; [intros ->; split; reflexivity | discriminate].
Qed.

(** Text and field references that render nothing on [dummy] leave an empty
    tree. *)
Lemma interpolation_renders_nothing (name : string) (nodes : list Node) :
  forallb interpolationNode nodes = true ->
  walkList (walk name dummy) nodes = ("", None) ->
  IsEmptyTree nodes = true.
Proof.
  unfold IsEmptyTree.
  induction nodes as [|node nodes IH]; [reflexivity|].
  cbn [forallb walkList]. intros Hnodes.
  apply andb_true_iff in Hnodes. destruct Hnodes as [Hnode Hnodes].
  destruct node as [Text | [first more| |] | ]; try discriminate; cbn [walk].
  - destruct (walkList (walk name dummy) nodes) as [out' err'].
    intros H; inversion H; subst.
    destruct (append_empty _ _ H1) as [-> ->].
    rewrite IH; [reflexivity | assumption | reflexivity].
  - cbn [evalPipeline].
    destruct (evalFieldChain name dummy first more) as [err|val] eqn:He;
      [discriminate|].
    destruct (walkList (walk name dummy) nodes) as [out' err'].
    intros H; inversion H.
    destruct (append_empty _ _ H1) as [Hval _].
    exfalso. exact (evalFieldChain_dummy _ _ _ _ He Hval).
Qed.

(** C3, amended.  [buildSecretTemplate] rejects a template whose parse
    tree is empty ([parse.IsEmptyTree]: nothing but white-space text; a
    comment leaves no node), and so rejects every template made of text and
    field references that renders to nothing for every input. *)
Theorem buildSecretTemplate_rejects_empty (name tmpl : string) (t : Template) :
  Parse name tmpl = inr t ->
  IsEmptyTree (Root t) = true
  \/ (interpolation t = true /\ forall data, Execute t data = ("", None)) ->
  buildSecretTemplate name tmpl
  = inl (errors_New "secret template should not be empty").
Proof.
  intros Hparse Hempty. unfold buildSecretTemplate. rewrite Hparse.
  assert (H : IsEmptyTree (Root t) = true).
  { destruct Hempty as [H | [Hi Hr]]; [exact H|].
    apply (interpolation_renders_nothing (Name t)); [exact Hi|].
    apply (Hr dummy). }
  rewrite H. reflexivity.
Qed.

Lemma buildSecretTemplate_rejects_empty_witness :
  buildSecretTemplate "team-secret-template" "{{/* unused */}}"
  = inl (errors_New "secret template should not be empty").
Proof.
  apply (buildSecretTemplate_rejects_empty "team-secret-template" "{{/* unused */}}"
           {| Name := "team-secret-template"; Root := [] |}).
  - reflexivity.
  - right. split; [reflexivity | intros data; reflexivity].
Defined.

(** C3 as stated fails: the template made of the action that prints the
    empty string constant renders to nothing for every input, and
    [buildSecretTemplate] accepts it, since an action is never an empty
    node. *)
Lemma empty_output_template_accepted :
  exists t,
    buildSecretTemplate "pipeline-secret-template" emptyStringAction = inr t
    /\ forall data, Execute t data = ("", None).
Proof.
  eexists. split; [reflexivity | intros data; reflexivity].
Qed.

(** ** Unknown fields *)

(** C4, amended.  When both templates compile and one of them, executed on
    the synthetic record, evaluates an operand that mentions a field other
    than Team, Pipeline and Secret, [Validate] fails with an execution
    error. *)
Theorem Validate_rejects_unknown_field
        (manager : Manager) (pipelineSecretTemplate teamSecretTemplate : Template) :
  buildSecretTemplate "pipeline-secret-template" (PipelineSecretTemplate manager)
    = inr pipelineSecretTemplate ->
  buildSecretTemplate "team-secret-template" (TeamSecretTemplate manager)
    = inr teamSecretTemplate ->
  reachesUnknown dummy pipelineSecretTemplate
  || reachesUnknown dummy teamSecretTemplate = true ->
  exists name field, fst (Validate manager) = Some (ExecError name field).
Proof.
  intros Hp Ht Hreach. rewrite Validate_eq, Hp, Ht. cbn [fst].
  destruct (snd (Execute pipelineSecretTemplate dummy)) as [err|] eqn:Ep.
  - destruct (Execute_error _ _ _ Ep) as [field ->]. eauto.
  - destruct (reachesUnknown dummy pipelineSecretTemplate) eqn:Hrp.
    + destruct (Execute_reaches_unknown _ _ Hrp) as [field Hf]. congruence.
    + cbn in Hreach.
      destruct (Execute_reaches_unknown _ _ Hreach) as [field ->]. eauto.
Qed.

Lemma Validate_rejects_unknown_field_witness :
  exists name field,
    fst (Validate (configuration "" "" "" ""
                     "/concourse/{{.Team}}/{{.Job}}/{{.Secret}}"
                     DefaultTeamSecretTemplate))
    = Some (ExecError name field).
Proof.
  apply (Validate_rejects_unknown_field
           (configuration "" "" "" ""
              "/concourse/{{.Team}}/{{.Job}}/{{.Secret}}" DefaultTeamSecretTemplate)
           {| Name := "pipeline-secret-template";
              Root := [ TextNode "/concourse/"; ActionNode (FieldNode "Team" []);
                        TextNode "/"; ActionNode (FieldNode "Job" []);
                        TextNode "/"; ActionNode (FieldNode "Secret" []) ] |}
           teamDefault); reflexivity.
Defined.

(** C4 as stated fails: a field [Secret] lacks may stand in a branch that
    execution on the synthetic record does not take.  The template below
    compiles and [Validate] accepts it; the reference shows only when a
    request without a pipeline is rendered. *)
Lemma unknown_field_in_untaken_branch_accepted :
  exists t,
    buildSecretTemplate "team-secret-template" pipelineOrJob = inr t
    /\ references t "Job"
    /\ known "Job" = false
    /\ Execute t dummy = ("/concourse/team/pipeline/secret", None)
    /\ fst (Validate (configuration "https://conjur" "acct" "host/concourse" "key"
                        DefaultPipelineSecretTemplate pipelineOrJob)) = None
    /\ snd (Execute t {| Team := "t1"; Pipeline := ""; Secret_ := "s1" |})
       = Some (ExecError "team-secret-template" "Job").
Proof.
  eexists. split; [reflexivity|].
  split; [unfold references; cbn; tauto|].
  repeat split; reflexivity.
Qed.

(** ** Known fields *)




(** ** Resolution order *)

(** The factory gets the pipeline-scoped template first, then the
    team-scoped one, both compiled from the strings of the manager. *)
Lemma NewSecretsFactory_templates
      (LoadConfig : error + Config)
      (NewClientFromKey : Config -> LoginPair -> error + Client)
      (manager : Manager) (factory : ConjurFactory) :
  fst (NewSecretsFactory LoadConfig NewClientFromKey manager) = inr factory ->
  exists pipelineSecretTemplate teamSecretTemplate,
    buildSecretTemplate "pipeline-secret-template" (PipelineSecretTemplate manager)
      = inr pipelineSecretTemplate
    /\ buildSecretTemplate "team-secret-template" (TeamSecretTemplate manager)
      = inr teamSecretTemplate
    /\ secretTemplates factory = [pipelineSecretTemplate; teamSecretTemplate].
Proof.
  unfold NewSecretsFactory, bind, load, ret.
  destruct LoadConfig; [discriminate|].
  destruct (NewClientFromKey _ _); [discriminate|].
  destruct (buildSecretTemplate _ (PipelineSecretTemplate manager)) as [|p];
    [discriminate|].
  destruct (buildSecretTemplate _ (TeamSecretTemplate manager)) as [|t];
    [discriminate|].
  cbn. intros H; inversion H; subst. exists p, t. repeat split.
Qed.

Lemma resolve_two (request : Secret) (p t : Template) (storeClient : StoreClient)
      (pp tp : string) :
  Pipeline request <> "" ->
  Execute p request = (pp, None) ->
  Execute t request = (tp, None) ->
  resolve request [p; t] storeClient =
  match storeClient pp with
  | fetchValue value => ([pp], Found value)
  | fetchError err => ([pp], Error err)
  | fetchNotFound =>
      match storeClient tp with
      | fetchValue value => ([pp; tp], Found value)
      | fetchError err => ([pp; tp], Error err)
      | fetchNotFound => ([pp; tp], ExhaustedNotFound)
      end
  end.
Proof.
  intros Hpipeline Hp Ht. unfold resolve, precedence.
  destruct (String.eqb_spec (Pipeline request) ""); [contradiction|].
  cbn [tryCandidates]. rewrite Hp, Ht.
  destruct (storeClient pp); try reflexivity.
  destruct (storeClient tp); reflexivity.
Qed.

(** C1.  For a request with a pipeline, the resolver working on the
    templates of [NewSecretsFactory] queries the path rendered from the
    pipeline-scoped template first, and the path rendered from the
    team-scoped template after it and only when the first is not found.
    With the default templates and the request t1, p1, s1 the two paths
    are /concourse/t1/p1/s1 and /concourse/t1/s1. *)
Theorem resolve_queries_pipeline_path_first
        (LoadConfig : error + Config)
        (NewClientFromKey : Config -> LoginPair -> error + Client)
        (manager : Manager) (factory : ConjurFactory)
        (request : Secret) (storeClient : StoreClient)
        (pipelineSecretTemplate teamSecretTemplate : Template)
        (pipelinePath teamPath : string) :
  fst (NewSecretsFactory LoadConfig NewClientFromKey manager) = inr factory ->
  buildSecretTemplate "pipeline-secret-template" (PipelineSecretTemplate manager)
    = inr pipelineSecretTemplate ->
  buildSecretTemplate "team-secret-template" (TeamSecretTemplate manager)
    = inr teamSecretTemplate ->
  Pipeline request <> "" ->
  Execute pipelineSecretTemplate request = (pipelinePath, None) ->
  Execute teamSecretTemplate request = (teamPath, None) ->
  fst (resolve request (secretTemplates factory) storeClient)
  = match storeClient pipelinePath with
    | fetchNotFound => [pipelinePath; teamPath]
    | _ => [pipelinePath]
    end
  /\ (PipelineSecretTemplate manager = DefaultPipelineSecretTemplate ->
      TeamSecretTemplate manager = DefaultTeamSecretTemplate ->
      request = t1p1s1 ->
      pipelinePath = "/concourse/t1/p1/s1" /\ teamPath = "/concourse/t1/s1").
Proof.
  intros Hfactory Hp Ht Hpipeline Ep Et.
  destruct (NewSecretsFactory_templates _ _ _ _ Hfactory)
    as (p & t & Hp' & Ht' & ->).
  rewrite Hp in Hp'. rewrite Ht in Ht'.
  inversion Hp'; inversion Ht'; subst p t.
  split.
  - rewrite (resolve_two _ _ _ _ _ _ Hpipeline Ep Et).
    destruct (storeClient pipelinePath); try reflexivity.
    destruct (storeClient teamPath); reflexivity.
  - intros Dp Dt ->. rewrite Dp in Hp. rewrite Dt in Ht.
    rewrite parse_default_pipeline in Hp. rewrite parse_default_team in Ht.
    inversion Hp; inversion Ht; subst.
    rewrite render_default_pipeline in Ep. rewrite render_default_team in Et.
    inversion Ep; inversion Et. split; reflexivity.
Qed.

Lemma resolve_queries_pipeline_path_first_witness :
  fst (resolve t1p1s1 [pipelineDefault; teamDefault] teamOnlyStore)
  = ["/concourse/t1/p1/s1"; "/concourse/t1/s1"]
  /\ (DefaultPipelineSecretTemplate = DefaultPipelineSecretTemplate ->
      DefaultTeamSecretTemplate = DefaultTeamSecretTemplate ->
      t1p1s1 = t1p1s1 ->
      "/concourse/t1/p1/s1" = "/concourse/t1/p1/s1"
      /\ "/concourse/t1/s1" = "/concourse/t1/s1").
Proof.
  apply (resolve_queries_pipeline_path_first
           (inr someConfig) newClient
           (defaults "https://conjur" "acct" "host/concourse" "key")
           (NewConjurFactory
              {| clientConfig :=
                   {| ApplianceURL := "https://conjur"; Account := "acct" |};
                 clientLogin := {| Login := "host/concourse"; APIKey := "key" |} |}
              [pipelineDefault; teamDefault])
           t1p1s1 teamOnlyStore pipelineDefault teamDefault
           "/concourse/t1/p1/s1" "/concourse/t1/s1");
    [reflexivity | reflexivity | reflexivity | discriminate
    | reflexivity | reflexivity].
Defined.

(** C8.  For a request with a pipeline, when the store reports not-found
    for the pipeline-scoped path and returns a value for the team-scoped
    path, [resolve] returns that value, found. *)
Theorem resolve_falls_back_to_team_path
        (request : Secret) (pipelineScoped teamScoped : Template)
        (storeClient : StoreClient) (pipelinePath teamPath value : string) :
  Pipeline request <> "" ->
  Execute pipelineScoped request = (pipelinePath, None) ->
  Execute teamScoped request = (teamPath, None) ->
  storeClient pipelinePath = fetchNotFound ->
  storeClient teamPath = fetchValue value ->
  snd (resolve request [pipelineScoped; teamScoped] storeClient) = Found value.
Proof.
  intros Hpipeline Ep Et Hnot Hval.
  rewrite (resolve_two _ _ _ _ _ _ Hpipeline Ep Et), Hnot, Hval. reflexivity.
Qed.

Lemma resolve_falls_back_to_team_path_witness :
  snd (resolve t1p1s1 [pipelineDefault; teamDefault] teamOnlyStore) = Found "v".
Proof.
  apply (resolve_falls_back_to_team_path t1p1s1 pipelineDefault teamDefault
           teamOnlyStore "/concourse/t1/p1/s1" "/concourse/t1/s1" "v");
    [discriminate | reflexivity | reflexivity | reflexivity | reflexivity].
Defined.


(** * Further properties of the manager *)

(** ** Outcomes of [Validate] *)

Lemma buildSecretTemplate_error (name tmpl : string) (err : error) :
  buildSecretTemplate name tmpl = inl err ->
  err = ParseError name \/ err = errors_New "secret template should not be empty".
Proof.
  unfold buildSecretTemplate, Parse.
  destruct (parse tmpl) as [root|]; cbn [Root].
  - destruct (IsEmptyTree root); intros H; inversion H. right. reflexivity.
  - intros H; inversion H. left. reflexivity.
Qed.

Lemma connection_fields_cases (manager : Manager) :
  (if notInUse manager then None
   else if ConjurAuthnLogin manager =? ""
   then Some (errors_New "must provide conjur authn login")
   else if ConjurAuthnApiKey manager =? ""
   then Some (errors_New "must provide conjur authn key")
   else if ConjurApplianceUrl manager =? ""
   then Some (errors_New "must provide conjur appliance url")
   else if ConjurAccount manager =? ""
   then Some (errors_New "must provide conjur account")
   else None) = None ->
  notInUse manager = true \/ allSet manager = true.
Proof.
  unfold notInUse, allSet.
  destruct (ConjurApplianceUrl manager =? ""), (ConjurAccount manager =? ""),
    (ConjurAuthnLogin manager =? ""), (ConjurAuthnApiKey manager =? "");
    cbn; intros H; try discriminate; auto.
Qed.

(** What a nil result of [Validate] tells. *)
Lemma Validate_nil (manager : Manager) :
  fst (Validate manager) = None ->
  templatesPass manager /\ (notInUse manager = true \/ allSet manager = true).
Proof.
  rewrite Validate_eq. cbn [fst]. unfold templatesPass.
  destruct (buildSecretTemplate _ (PipelineSecretTemplate manager)) as [|p];
    [discriminate|].
  destruct (buildSecretTemplate _ (TeamSecretTemplate manager)) as [|t];
    [discriminate|].
  destruct (snd (Execute p dummy)) eqn:Ep; [discriminate|].
  destruct (snd (Execute t dummy)) eqn:Et; [discriminate|].
  intros H. split.
  - exists p, t. repeat split; assumption.
  - apply connection_fields_cases. exact H.
Qed.

(** X1. [Validate] returns nil exactly when both templates compile and
    execute on the synthetic record and the four connection fields are
    either all empty or all set. *)
Theorem Validate_nil_iff (manager : Manager) :
  fst (Validate manager) = None
  <-> templatesPass manager
      /\ (notInUse manager = true \/ allSet manager = true).
Proof.
  split; [apply Validate_nil|].
  intros [Hpass Hfields]. rewrite (Validate_after_templates manager Hpass).
  destruct Hfields as [H|H]; [rewrite H; reflexivity|].
  revert H. unfold notInUse, allSet.
  destruct (ConjurApplianceUrl manager =? ""), (ConjurAccount manager =? ""),
    (ConjurAuthnLogin manager =? ""), (ConjurAuthnApiKey manager =? "");
    cbn; intros H; try discriminate; reflexivity.
Qed.

(** X2. The errors of [Validate]: a parse error of one of the two
    templates, the empty-template error, an execution error of one of the
    two templates, or one of the four messages for a missing connection
    field; nothing else. *)
Theorem Validate_errors (manager : Manager) (err : error) :
  fst (Validate manager) = Some err ->
  In err validationErrors
  \/ exists field,
       err = ExecError "pipeline-secret-template" field
       \/ err = ExecError "team-secret-template" field.
Proof.
  rewrite Validate_eq. cbn [fst]. unfold validationErrors.
  destruct (buildSecretTemplate _ (PipelineSecretTemplate manager)) as [e|p] eqn:Hp.
  { intros H; inversion H; subst.
    destruct (buildSecretTemplate_error _ _ _ Hp) as [-> | ->]; left; cbn; tauto. }
  destruct (buildSecretTemplate _ (TeamSecretTemplate manager)) as [e|t] eqn:Ht.
  { intros H; inversion H; subst.
    destruct (buildSecretTemplate_error _ _ _ Ht) as [-> | ->]; left; cbn; tauto. }
  destruct (snd (Execute p dummy)) as [e|] eqn:Ep.
  { intros H; inversion H; subst.
    destruct (Execute_error _ _ _ Ep) as [field ->].
    rewrite (buildSecretTemplate_name _ _ _ Hp). right. exists field. tauto. }
  destruct (snd (Execute t dummy)) as [e|] eqn:Et.
  { intros H; inversion H; subst.
    destruct (Execute_error _ _ _ Et) as [field ->].
    rewrite (buildSecretTemplate_name _ _ _ Ht). right. exists field. tauto. }
  destruct (notInUse manager); [discriminate|].
  destruct (ConjurAuthnLogin manager =? "");
    [intros H; inversion H; left; cbn; tauto|].
  destruct (ConjurAuthnApiKey manager =? "");
    [intros H; inversion H; left; cbn; tauto|].
  destruct (ConjurApplianceUrl manager =? "");
    [intros H; inversion H; left; cbn; tauto|].
  destruct (ConjurAccount manager =? "");
    [intros H; inversion H; left; cbn; tauto | discriminate].
Qed.

Lemma Validate_errors_witness :
  In (errors_New "must provide conjur account") validationErrors
  \/ exists field,
       errors_New "must provide conjur account"
       = ExecError "pipeline-secret-template" field
       \/ errors_New "must provide conjur account"
          = ExecError "team-secret-template" field.
Proof.
  apply (Validate_errors (defaults "https://conjur" "" "host/concourse" "key")).
  reflexivity.
Defined.

(** X4. After a nil result of [Validate], [IsConfigured] tells the two
    accepted shapes apart: true means the four connection fields are all
    set, false means they are all empty. *)
Theorem Validate_nil_IsConfigured (manager : Manager) :
  fst (Validate manager) = None ->
  (fst (IsConfigured manager) = true -> allSet manager = true)
  /\ (fst (IsConfigured manager) = false -> notInUse manager = true).
Proof.
  intros Hnil. destruct (Validate_nil manager Hnil) as [_ Hfields].
  run_method. cbn [fst]. revert Hfields. unfold notInUse, allSet.
  destruct (ConjurApplianceUrl manager =? ""); cbn; intros [H|H]; split;
    intros H'; try discriminate; assumption.
Qed.

Lemma Validate_nil_IsConfigured_witness :
  (fst (IsConfigured (defaults "https://conjur" "acct" "host/concourse" "key")) = true ->
   allSet (defaults "https://conjur" "acct" "host/concourse" "key") = true)
  /\ (fst (IsConfigured (defaults "https://conjur" "acct" "host/concourse" "key")) = false ->
      notInUse (defaults "https://conjur" "acct" "host/concourse" "key") = true).
Proof.
  apply (Validate_nil_IsConfigured
           (defaults "https://conjur" "acct" "host/concourse" "key")).
  reflexivity.
Defined.

(** ** What [Init] and [NewSecretsFactory] compute *)

Lemma Init_eq (LoadConfig : error + Config)
      (NewClientFromKey : Config -> LoginPair -> error + Client)
      (manager : Manager) :
  Init LoadConfig NewClientFromKey manager =
  match LoadConfig with
  | inl err => (Some err, manager)
  | inr _ =>
      match NewClientFromKey (configOf manager) (loginOf manager) with
      | inl err => (Some err, manager)
      | inr conjur => (None, snd (storeConjur (Some {| client := conjur |}) manager))
      end
  end.
Proof.
  unfold Init, bind, load, ret, configOf, loginOf.
  destruct LoadConfig; [reflexivity|].
  destruct (NewClientFromKey _ _); reflexivity.
Qed.

Lemma NewSecretsFactory_eq (LoadConfig : error + Config)
      (NewClientFromKey : Config -> LoginPair -> error + Client)
      (manager : Manager) :
  NewSecretsFactory LoadConfig NewClientFromKey manager =
  (match LoadConfig with
   | inl err => inl err
   | inr _ =>
   match NewClientFromKey (configOf manager) (loginOf manager) with
   | inl err => inl err
   | inr conjur =>
   match buildSecretTemplate "pipeline-secret-template" (PipelineSecretTemplate manager) with
   | inl err => inl err
   | inr pipelineSecretTemplate =>
   match buildSecretTemplate "team-secret-template" (TeamSecretTemplate manager) with
   | inl err => inl err
   | inr teamSecretTemplate =>
       inr (NewConjurFactory conjur [pipelineSecretTemplate; teamSecretTemplate])
   end end end end, manager).
Proof.
  unfold NewSecretsFactory, bind, load, ret, configOf, loginOf.
  destruct LoadConfig; [reflexivity|].
  destruct (NewClientFromKey _ _); [reflexivity|].
  destruct (buildSecretTemplate _ (PipelineSecretTemplate manager)); [reflexivity|].
  destruct (buildSecretTemplate _ (TeamSecretTemplate manager)); reflexivity.
Qed.

(** ** The certificate file *)

(** X3. No method reads the certificate file of the manager: changing it
    changes neither the result of [Validate], [IsConfigured], [Init] and
    [NewSecretsFactory], nor the client that [Init] stores. *)
Theorem ConjurCertFile_is_not_read
        (LoadConfig : error + Config)
        (NewClientFromKey : Config -> LoginPair -> error + Client)
        (certFile : string) (manager : Manager) :
  fst (Validate (withCertFile certFile manager)) = fst (Validate manager)
  /\ fst (IsConfigured (withCertFile certFile manager)) = fst (IsConfigured manager)
  /\ fst (Init LoadConfig NewClientFromKey (withCertFile certFile manager))
     = fst (Init LoadConfig NewClientFromKey manager)
  /\ Conjur_ (snd (Init LoadConfig NewClientFromKey (withCertFile certFile manager)))
     = Conjur_ (snd (Init LoadConfig NewClientFromKey manager))
  /\ fst (NewSecretsFactory LoadConfig NewClientFromKey (withCertFile certFile manager))
     = fst (NewSecretsFactory LoadConfig NewClientFromKey manager).
Proof.
  split; [rewrite !Validate_eq; reflexivity|].
  split; [reflexivity|].
  rewrite !Init_eq, !NewSecretsFactory_eq.
  change (configOf (withCertFile certFile manager)) with (configOf manager).
  change (loginOf (withCertFile certFile manager)) with (loginOf manager).
  destruct LoadConfig; [repeat split; reflexivity|].
  destruct (NewClientFromKey _ _); repeat split; reflexivity.
Qed.

(** ** [Init] *)

(** X5. When [Init] returns nil, the client library accepted the appliance
    URL, account, login and api key of the manager, the client it returned
    is the one the manager now holds, and no setting of the manager has
    changed. *)
Theorem Init_success
        (LoadConfig : error + Config)
        (NewClientFromKey : Config -> LoginPair -> error + Client)
        (manager : Manager) :
  fst (Init LoadConfig NewClientFromKey manager) = None ->
  exists conjur,
    NewClientFromKey (configOf manager) (loginOf manager) = inr conjur
    /\ Conjur_ (snd (Init LoadConfig NewClientFromKey manager))
       = Some {| client := conjur |}
    /\ sameSettings manager (snd (Init LoadConfig NewClientFromKey manager)).
Proof.
  unfold Init, bind, load, ret, storeConjur, configOf, loginOf.
  destruct LoadConfig; [discriminate|].
  destruct (NewClientFromKey _ _) as [|conjur]; [discriminate|].
  intros _. exists conjur. repeat split.
Qed.

Lemma Init_success_witness :
  exists conjur,
    newClient (configOf (defaults "https://conjur" "acct" "host/concourse" "key"))
      (loginOf (defaults "https://conjur" "acct" "host/concourse" "key"))
    = inr conjur
    /\ Conjur_ (snd (Init (inr someConfig) newClient
                       (defaults "https://conjur" "acct" "host/concourse" "key")))
       = Some {| client := conjur |}
    /\ sameSettings (defaults "https://conjur" "acct" "host/concourse" "key")
         (snd (Init (inr someConfig) newClient
                 (defaults "https://conjur" "acct" "host/concourse" "key"))).
Proof.
  apply (Init_success (inr someConfig) newClient
           (defaults "https://conjur" "acct" "host/concourse" "key")).
  reflexivity.
Defined.

(** X6. When [Init] returns an error, it is the error of loading the
    configuration or, that having succeeded, the error of creating the
    client, and the manager is left as it was: no client is stored. *)
Theorem Init_failure
        (LoadConfig : error + Config)
        (NewClientFromKey : Config -> LoginPair -> error + Client)
        (manager : Manager) (err : error) :
  fst (Init LoadConfig NewClientFromKey manager) = Some err ->
  snd (Init LoadConfig NewClientFromKey manager) = manager
  /\ (LoadConfig = inl err
      \/ exists config,
           LoadConfig = inr config
           /\ NewClientFromKey (configOf manager) (loginOf manager) = inl err).
Proof.
  unfold Init, bind, load, ret, storeConjur, configOf, loginOf.
  destruct LoadConfig as [e|config].
  - intros H; inversion H. split; [reflexivity | left; reflexivity].
  - destruct (NewClientFromKey _ _) as [e|conjur]; [|discriminate].
    intros H; inversion H. split; [reflexivity|].
    right. exists config. split; reflexivity.
Qed.

Lemma Init_failure_witness :
  snd (Init (inr someConfig) refusingClient (defaults "https://conjur" "acct" "" ""))
  = defaults "https://conjur" "acct" "" ""
  /\ (@inr error Config someConfig = inl (errors_New "conjur: unauthorized")
      \/ exists config,
           @inr error Config someConfig = inr config
           /\ refusingClient (configOf (defaults "https://conjur" "acct" "" ""))
                (loginOf (defaults "https://conjur" "acct" "" ""))
              = inl (errors_New "conjur: unauthorized")).
Proof.
  apply (Init_failure (inr someConfig) refusingClient
           (defaults "https://conjur" "acct" "" "")
           (errors_New "conjur: unauthorized")).
  reflexivity.
Defined.

(** X7. [Init] does not change what [Validate] and [IsConfigured] answer:
    they give the same result on the manager after [Init] as before it,
    whether [Init] succeeded or not. *)
Theorem Init_preserves_validation
        (LoadConfig : error + Config)
        (NewClientFromKey : Config -> LoginPair -> error + Client)
        (manager : Manager) :
  fst (Validate (snd (Init LoadConfig NewClientFromKey manager)))
  = fst (Validate manager)
  /\ fst (IsConfigured (snd (Init LoadConfig NewClientFromKey manager)))
     = fst (IsConfigured manager).
Proof.
  rewrite !Validate_eq.
  unfold Init, IsConfigured, bind, load, ret, storeConjur.
  destruct LoadConfig; [split; reflexivity|].
  destruct (NewClientFromKey _ _); split; reflexivity.
Qed.

(** ** [NewSecretsFactory] *)

(** X8. [NewSecretsFactory] and [IsConfigured] leave the manager as they
    found it; in particular [NewSecretsFactory] does not store the client
    it creates in the manager. *)
Theorem NewSecretsFactory_does_not_mutate
        (LoadConfig : error + Config)
        (NewClientFromKey : Config -> LoginPair -> error + Client)
        (manager : Manager) :
  snd (NewSecretsFactory LoadConfig NewClientFromKey manager) = manager
  /\ snd (IsConfigured manager) = manager.
Proof.
  split; [|reflexivity].
  unfold NewSecretsFactory, bind, load, ret.
  destruct LoadConfig; [reflexivity|].
  destruct (NewClientFromKey _ _); [reflexivity|].
  destruct (buildSecretTemplate _ (PipelineSecretTemplate manager)); [reflexivity|].
  destruct (buildSecretTemplate _ (TeamSecretTemplate manager)); reflexivity.
Qed.

(** X9. On a manager that [Validate] accepts, [NewSecretsFactory] cannot
    fail on a template: once the configuration loads and the client is
    created, it returns the factory made of that client and of the list
    holding first the template compiled from the pipeline template string
    of the manager, then the one compiled from its team template string;
    both execute on the synthetic record. *)
Theorem Validate_then_NewSecretsFactory
        (LoadConfig : error + Config)
        (NewClientFromKey : Config -> LoginPair -> error + Client)
        (manager : Manager) (config : Config) (conjur : Client) :
  fst (Validate manager) = None ->
  LoadConfig = inr config ->
  NewClientFromKey (configOf manager) (loginOf manager) = inr conjur ->
  exists pipelineSecretTemplate teamSecretTemplate,
    buildSecretTemplate "pipeline-secret-template" (PipelineSecretTemplate manager)
      = inr pipelineSecretTemplate
    /\ buildSecretTemplate "team-secret-template" (TeamSecretTemplate manager)
      = inr teamSecretTemplate
    /\ fst (NewSecretsFactory LoadConfig NewClientFromKey manager)
       = inr (NewConjurFactory conjur [pipelineSecretTemplate; teamSecretTemplate])
    /\ snd (Execute pipelineSecretTemplate dummy) = None
    /\ snd (Execute teamSecretTemplate dummy) = None.
Proof.
  intros Hnil HL HN.
  destruct (Validate_nil manager Hnil) as [(p & t & Hp & Ht & Ep & Et) _].
  exists p, t. split; [exact Hp|]. split; [exact Ht|].
  split; [|split; assumption].
  rewrite NewSecretsFactory_eq, HL, HN, Hp, Ht. reflexivity.
Qed.

Lemma Validate_then_NewSecretsFactory_witness :
  exists pipelineSecretTemplate teamSecretTemplate,
    buildSecretTemplate "pipeline-secret-template"
      (PipelineSecretTemplate (defaults "https://conjur" "acct" "host/concourse" "key"))
      = inr pipelineSecretTemplate
    /\ buildSecretTemplate "team-secret-template"
         (TeamSecretTemplate (defaults "https://conjur" "acct" "host/concourse" "key"))
       = inr teamSecretTemplate
    /\ fst (NewSecretsFactory (inr someConfig) newClient
              (defaults "https://conjur" "acct" "host/concourse" "key"))
       = inr (NewConjurFactory
                {| clientConfig :=
                     configOf (defaults "https://conjur" "acct" "host/concourse" "key");
                   clientLogin :=
                     loginOf (defaults "https://conjur" "acct" "host/concourse" "key") |}
                [pipelineSecretTemplate; teamSecretTemplate])
    /\ snd (Execute pipelineSecretTemplate dummy) = None
    /\ snd (Execute teamSecretTemplate dummy) = None.
Proof.
  apply (Validate_then_NewSecretsFactory (inr someConfig) newClient
           (defaults "https://conjur" "acct" "host/concourse" "key") someConfig);
    reflexivity.
Defined.

(** ** Templates *)

Lemma append_empty_r (s : string) : s ++ "" = s.
Proof.
  induction s as [|c s IH]; cbn; [reflexivity | rewrite IH; reflexivity].
Qed.

Lemma append_snoc (buf : string) (c : ascii) (rest : string) :
  snoc buf c ++ rest = buf ++ String c rest.
Proof.
  unfold snoc. induction buf as [|b buf IH]; cbn;
    [reflexivity | rewrite IH; reflexivity].
Qed.

(** Without a left delimiter the lexer stays in [lexText] to the end. *)
Lemma lex_literal (text : string) :
  noBrace text = true ->
  forall buf items out,
    lex (lexText buf) items out text = Some (rev (emitText (buf ++ text) out)).
Proof.
  induction text as [|c rest IH]; intros H buf items out.
  - cbn. rewrite append_empty_r. reflexivity.
  - cbn [noBrace] in H. apply andb_true_iff in H. destruct H as [Hc Hrest].
    apply negb_true_iff in Hc.
    cbn [lex]. rewrite Hc. cbn [andb].
    assert (E : match rest with
                | EmptyString | _ => lex (lexText (snoc buf c)) items out rest
                end = lex (lexText (snoc buf c)) items out rest)
      by (destruct rest; reflexivity).
    rewrite E, (IH Hrest), append_snoc. reflexivity.
Qed.

Lemma parse_literal (text : string) :
  noBrace text = true ->
  parse text = Some match text with
                    | EmptyString => []
                    | _ => [TextNode text]
                    end.
Proof.
  intros H. unfold parse. rewrite (lex_literal text H).
  destruct text; reflexivity.
Qed.

(** X11. A template text without an opening brace is a literal path:
    [buildSecretTemplate] rejects it as empty when it is blank and
    otherwise compiles it to a template that renders to the text itself,
    for every request. *)
Theorem buildSecretTemplate_literal (name tmpl : string) :
  noBrace tmpl = true ->
  match buildSecretTemplate name tmpl with
  | inl err =>
      trimsToEmpty tmpl = true
      /\ err = errors_New "secret template should not be empty"
  | inr t =>
      trimsToEmpty tmpl = false
      /\ Name t = name
      /\ forall data, Execute t data = (tmpl, None)
  end.
Proof.
  intros H. unfold buildSecretTemplate, Parse. rewrite (parse_literal tmpl H).
  destruct tmpl as [|c rest].
  - cbn. split; reflexivity.
  - cbn [Root IsEmptyTree forallb IsEmptyNode]. rewrite andb_true_r.
    destruct (trimsToEmpty (String c rest)); [split; reflexivity|].
    split; [reflexivity|]. split; [reflexivity|].
    intros data. unfold Execute. cbn [Root walkList walk Name].
    rewrite append_empty_r. reflexivity.
Qed.

Lemma buildSecretTemplate_literal_witness :
  match buildSecretTemplate "team-secret-template" "/concourse/shared/token" with
  | inl err =>
      trimsToEmpty "/concourse/shared/token" = true
      /\ err = errors_New "secret template should not be empty"
  | inr t =>
      trimsToEmpty "/concourse/shared/token" = false
      /\ Name t = "team-secret-template"
      /\ forall data, Execute t data = ("/concourse/shared/token", None)
  end.
Proof.
  apply (buildSecretTemplate_literal "team-secret-template" "/concourse/shared/token").
  reflexivity.
Defined.

Lemma buildSecretTemplate_not_empty (name tmpl : string) (t : Template) :
  buildSecretTemplate name tmpl = inr t -> IsEmptyTree (Root t) = false.
Proof.
  unfold buildSecretTemplate.
  destruct (Parse name tmpl) as [|t']; [discriminate|].
  destruct (IsEmptyTree (Root t')) eqn:E; [discriminate|].
  intros H; inversion H; subst. exact E.
Qed.

Lemma trimsToEmpty_nonempty (text : string) :
  trimsToEmpty text = false -> text <> "".
Proof.
  intros H ->. discriminate.
Qed.

Lemma evalFieldChain_nonempty (name : string) (request : Secret)
      (first : string) (more : list string) (val : value) :
  Team request <> "" -> Pipeline request <> "" -> Secret_ request <> "" ->
  evalFieldChain name request first more = inr val -> printValue val <> "".
Proof.
  intros Ht Hp Hs. unfold evalFieldChain, evalField.
  destruct (first =? "Team"), (first =? "Pipeline"), (first =? "Secret"), more;
    intros H; inversion H; assumption.
Qed.

Lemma interpolation_path_nonempty (name : string) (request : Secret)
      (nodes : list Node) :
  Team request <> "" -> Pipeline request <> "" -> Secret_ request <> "" ->
  forallb interpolationNode nodes = true ->
  IsEmptyTree nodes = false ->
  forall out, walkList (walk name request) nodes = (out, None) -> out <> "".
Proof.
  intros Ht Hp Hs. unfold IsEmptyTree.
  induction nodes as [|node nodes IH]; [discriminate|].
  cbn [forallb walkList]. intros Hnodes Hempty out.
  apply andb_true_iff in Hnodes. destruct Hnodes as [Hnode Hnodes].
  destruct node as [Text | [first more| |] | ]; try discriminate; cbn [walk].
  - destruct (walkList (walk name request) nodes) as [out' err'] eqn:Hw.
    intros H; inversion H; subst. intros Hout.
    destruct (append_empty _ _ Hout) as [-> ->].
    cbn in Hempty. exact (IH Hnodes Hempty "" eq_refl eq_refl).
  - cbn [evalPipeline].
    destruct (evalFieldChain name request first more) as [err|val] eqn:He;
      [discriminate|].
    destruct (walkList (walk name request) nodes) as [out' err'].
    intros H; inversion H; subst. intros Hout.
    destruct (append_empty _ _ Hout) as [Hval _].
    exact (evalFieldChain_nonempty _ _ _ _ _ Ht Hp Hs He Hval).
Qed.

(** X12. A template of text and field references that
    [buildSecretTemplate] accepts never renders to the empty path for a
    request whose team, pipeline and secret name are all non-empty. *)
Theorem accepted_template_renders_nonempty_path
        (name tmpl : string) (t : Template) (request : Secret) (path : string) :
  buildSecretTemplate name tmpl = inr t ->
  interpolation t = true ->
  Team request <> "" -> Pipeline request <> "" -> Secret_ request <> "" ->
  Execute t request = (path, None) ->
  path <> "".
Proof.
  intros Hbuild Hi Ht Hp Hs Hexec.
  apply (interpolation_path_nonempty (Name t) request (Root t)); try assumption.
  eapply buildSecretTemplate_not_empty; eassumption.
Qed.

Lemma accepted_template_renders_nonempty_path_witness :
  "/concourse/t1/p1/s1" <> "".
Proof.
  apply (accepted_template_renders_nonempty_path
           "pipeline-secret-template" DefaultPipelineSecretTemplate
           pipelineDefault t1p1s1 "/concourse/t1/p1/s1");
    try reflexivity; discriminate.
Defined.

(** Whether an operand evaluates does not depend on the values of the
    fields. *)
Lemma evalPipeline_any (name : string) (data data' : Secret) (pipe : Arg) (val : value) :
  evalPipeline name data pipe = inr val ->
  exists val', evalPipeline name data' pipe = inr val'.
Proof.
  destruct pipe as [first more| |]; cbn;
    try (intros _; eexists; reflexivity).
  unfold evalFieldChain, evalField.
  destruct (first =? "Team"), (first =? "Pipeline"), (first =? "Secret"), more;
    intros H; try discriminate; eexists; reflexivity.
Qed.

Lemma walkList_textAndActions (name : string) (data data' : Secret) (nodes : list Node) :
  forallb textOrAction nodes = true ->
  snd (walkList (walk name data) nodes) = None ->
  snd (walkList (walk name data') nodes) = None.
Proof.
  induction nodes as [|node nodes IH]; [reflexivity|].
  cbn [forallb walkList]. intros Hnodes.
  apply andb_true_iff in Hnodes. destruct Hnodes as [Hnode Hnodes].
  destruct node as [Text | Pipe | ]; try discriminate; cbn [walk].
  - destruct (walkList (walk name data) nodes) as [out err].
    destruct (walkList (walk name data') nodes) as [out' err'].
    cbn [snd] in *. intros H. exact (IH Hnodes H).
  - destruct (evalPipeline name data Pipe) as [e|val] eqn:He; [discriminate|].
    destruct (evalPipeline_any name data data' Pipe val He) as [val' ->].
    destruct (walkList (walk name data) nodes) as [out err].
    destruct (walkList (walk name data') nodes) as [out' err'].
    cbn [snd] in *. intros H. exact (IH Hnodes H).
Qed.

(** X13. For templates whose tree holds only text and actions of one
    operand (a field chain or a string or boolean constant, so no if, with,
    range, template call, pipe or function), the check on the synthetic
    record is enough: when [Validate] returns nil, both compiled templates
    execute without error on every request. *)
Theorem Validate_covers_every_request
        (manager : Manager) (pipelineSecretTemplate teamSecretTemplate : Template)
        (request : Secret) :
  buildSecretTemplate "pipeline-secret-template" (PipelineSecretTemplate manager)
    = inr pipelineSecretTemplate ->
  buildSecretTemplate "team-secret-template" (TeamSecretTemplate manager)
    = inr teamSecretTemplate ->
  textAndActions pipelineSecretTemplate = true ->
  textAndActions teamSecretTemplate = true ->
  fst (Validate manager) = None ->
  snd (Execute pipelineSecretTemplate request) = None
  /\ snd (Execute teamSecretTemplate request) = None.
Proof.
  intros Hp Ht Fp Ft Hnil.
  destruct (Validate_nil manager Hnil) as [(p & t & Hp' & Ht' & Ep & Et) _].
  rewrite Hp in Hp'. rewrite Ht in Ht'. inversion Hp'; inversion Ht'; subst p t.
  unfold Execute in *. split.
  - apply (walkList_textAndActions _ dummy); assumption.
  - apply (walkList_textAndActions _ dummy); assumption.
Qed.

Lemma Validate_covers_every_request_witness :
  snd (Execute pipelineDefault {| Team := "main"; Pipeline := ""; Secret_ := "" |}) = None
  /\ snd (Execute teamDefault {| Team := "main"; Pipeline := ""; Secret_ := "" |}) = None.
Proof.
  apply (Validate_covers_every_request (defaults "" "" "" "")); reflexivity.
Defined.

(** X14. The default templates compile, and for every request they render
    without error to /concourse/TEAM/PIPELINE/SECRET and
    /concourse/TEAM/SECRET, whatever the three names hold. *)
Theorem default_templates_render (request : Secret) :
  exists pipelineSecretTemplate teamSecretTemplate,
    buildSecretTemplate "pipeline-secret-template" DefaultPipelineSecretTemplate
      = inr pipelineSecretTemplate
    /\ buildSecretTemplate "team-secret-template" DefaultTeamSecretTemplate
      = inr teamSecretTemplate
    /\ Execute pipelineSecretTemplate request
       = ("/concourse/" ++ Team request ++ "/" ++ Pipeline request
            ++ "/" ++ Secret_ request, None)
    /\ Execute teamSecretTemplate request
       = ("/concourse/" ++ Team request ++ "/" ++ Secret_ request, None).
Proof.
  exists pipelineDefault, teamDefault.
  split; [reflexivity|]. split; [reflexivity|].
  unfold Execute, pipelineDefault, teamDefault.
  cbn [Root Name walkList walk evalPipeline evalFieldChain evalField
       String.eqb Ascii.eqb Bool.eqb printValue].
  rewrite !append_empty_r. split; reflexivity.
Qed.
